(** * RAG notebooks: retrieval glue, prompt assembly and batched ingestion

    Shallow embedding of the glue code of the three retrieval-augmented
    generation pipelines of the notebooks:

    - the first FAISS example ([embed], [rag]),
    - the second FAISS example ([retrieve_documents], [generate_answer]),
    - the ChromaDB / Groq example (batched [collection.add] loop,
      [get_docs], [generate]).

    Python values are modelled as the code has them: [str] as [string],
    lists as [list], dictionaries as [gmap string _], integers as [Z].
    Exceptions are an explicit [result] type, and the notebook globals
    that the functions read ([documents], [index], [collection]) are an
    explicit store threaded through a small state-and-exception monad.
    The pretrained models, the hosted chat endpoint and the vector
    stores are external collaborators: a model is a record of the
    functions the glue calls on it, the FAISS flat index is modelled by
    exhaustive search, and the nearest-neighbour search of ChromaDB is a
    field of the client. *)

From Stdlib Require Import QArith Lia Lqa.
From stdpp Require Import base list strings gmap sorting.

Local Open Scope Z_scope.

(** ** Python runtime fragments *)

Module Py.

(** Exceptions raised by the modelled fragment. *)
Inductive exn : Type :=
| IndexError
| KeyError (key : string)
| AssertionError
| ValueError.

Inductive result (A : Type) : Type :=
| Ok (a : A)
| Raise (e : exn).
Global Arguments Ok {A} a.
Global Arguments Raise {A} e.

Global Instance result_ret : MRet result := λ A a, Ok a.
Global Instance result_bind : MBind result := λ A B f m,
  match m with
  | Ok a => f a
  | Raise e => Raise e
  end.

Definition is_ok {A} (r : result A) : bool :=
  match r with Ok _ => true | Raise _ => false end.

(** [assert c] *)
Definition py_assert (c : bool) : result unit :=
  if c then Ok tt else Raise AssertionError.

(** A list comprehension whose element expression may raise:
    the elements are evaluated left to right and the first exception
    aborts the comprehension. *)
Fixpoint comprehension {A B} (f : A → result B) (l : list A) : result (list B) :=
  match l with
  | [] => Ok []
  | x :: l' =>
      match f x with
      | Ok y =>
          match comprehension f l' with
          | Ok ys => Ok (y :: ys)
          | Raise e => Raise e
          end
      | Raise e => Raise e
      end
  end.

(** [l[i]] on a Python list: a negative subscript counts from the end,
    and a subscript outside [-len(l), len(l)) raises [IndexError]. *)
Definition getitem {A} (l : list A) (i : Z) : result A :=
  let n := Z.of_nat (length l) in
  let j := if i <? 0 then i + n else i in
  if (0 <=? j) && (j <? n) then
    match l !! Z.to_nat j with
    | Some x => Ok x
    | None => Raise IndexError
    end
  else Raise IndexError.

(** [l[i:j]] for [0 <= i]: both bounds are clipped to the length. *)
Definition slice {A} (l : list A) (i j : nat) : list A :=
  take (j - i) (drop i l).

(** [range(0, n, step)] for a positive [step]: the start and [fuel]
    bound the unrolling; [range_from] is called with [fuel = n]. *)
Fixpoint range_from (fuel : nat) (i n step : nat) : list nat :=
  match fuel with
  | O => []
  | S fuel' =>
      if (i <? n)%nat then i :: range_from fuel' (i + step) n step else []
  end.

Definition range (n step : nat) : list nat := range_from n 0 n step.

(** [sep.join(l)] *)
Fixpoint join (sep : string) (l : list string) : string :=
  match l with
  | [] => ""
  | x :: rest =>
      match rest with
      | [] => x
      | _ :: _ => x +:+ sep +:+ join sep rest
      end
  end.

(** [d[k]] on a dictionary: a missing key raises [KeyError]. *)
Definition dict_getitem {V} (d : gmap string V) (k : string) : result V :=
  match d !! k with
  | Some v => Ok v
  | None => Raise (KeyError k)
  end.

(** [d.get(k, dflt)] *)
Definition dict_get {V} (d : gmap string V) (k : string) (dflt : V) : V :=
  default dflt (d !! k).

(** [t in s] for strings: [t] occurs in [s] as a contiguous run. *)
Fixpoint str_in (t s : string) : bool :=
  String.prefix t s ||
  match s with
  | EmptyString => false
  | String _ s' => str_in t s'
  end.

(** The line feed of the Python escape [\n] (code point 10). *)
Definition nl : string :=
  String (Ascii.Ascii false true false true false false false false) EmptyString.

End Py.

Import Py.

(** [contains s t]: the text [t] appears verbatim inside [s]. *)
Definition contains (s t : string) : Prop :=
  ∃ pre post, s = pre +:+ t +:+ post.

(** ** Prompt assemblers *)

Module Prompt.

(** [rag]: [input_text = " ".join(retrieved_docs) + " " + question] *)
Definition rag_input_text (retrieved_docs : list string) (question : string) : string :=
  (join " " retrieved_docs +:+ " ") +:+ question.

(** [generate_answer]:
    [context = " ".join(retrieved_docs)] and
    [input_text = f"summarize: question: {question} context: {context}"] *)
Definition generate_answer_input_text (question : string)
    (retrieved_docs : list string) : string :=
  let context := join " " retrieved_docs in
  "summarize: question: " +:+ question +:+ " context: " +:+ context.

(** [generate]: the adjacent string literals inside the parentheses are
    one literal, and [.join(docs)] is applied to that whole literal. *)
Definition system_literal : string :=
  "You are a helpful assistant that answers questions about AI using the " +:+
  "context provided below." +:+ nl +:+ nl +:+
  "CONTEXT:" +:+ nl +:+
  nl +:+ "---" +:+ nl.

Definition system_message (docs : list string) : string :=
  join system_literal docs.

Record message : Type := { role : string; content : string }.

Definition messages (query : string) (docs : list string) : list message :=
  [ {| role := "system"; content := system_message docs |};
    {| role := "user"; content := query |} ].

End Prompt.

(** ** Notebook store: state and exceptions *)

(** A notebook function is run against the global namespace [S] it
    reads; it returns a value or raises, and leaves a namespace. *)
Definition prog (S A : Type) : Type := S → result A * S.

Global Instance prog_ret {S} : MRet (prog S) := λ A a s, (Ok a, s).
Global Instance prog_bind {S} : MBind (prog S) := λ A B f m s,
  match m s with
  | (Ok a, s') => f a s'
  | (Raise e, s') => (Raise e, s')
  end.

(** Read a global name. *)
Definition global {S A} (name : S → A) : prog S A := λ s, (Ok (name s), s).
(** Evaluate an expression that touches no global. *)
Definition eval {S A} (r : result A) : prog S A := λ s, (r, s).

(** ** FAISS flat L2 index (external library)

    [faiss.IndexFlatL2(d)] stores the added vectors as they are and
    answers [search(x, k)] by exhaustive comparison under the squared
    Euclidean distance.  Each query row gets exactly [k] result slots,
    by non-decreasing distance; when fewer than [k] vectors are stored
    the remaining slots carry the label [-1].  Vector components are
    rationals and distances are exact: rounding is not modelled. *)

Module Faiss.

Local Open Scope Q_scope.

Fixpoint l2sqr (x y : list Q) : Q :=
  match x, y with
  | a :: x', b :: y' => (a - b) * (a - b) + l2sqr x' y'
  | _, _ => 0
  end.

Record IndexFlatL2 : Type := { d : nat; xb : list (list Q) }.

Definition ntotal (ix : IndexFlatL2) : nat := length (xb ix).

Definition new (dim : nat) : IndexFlatL2 := {| d := dim; xb := [] |}.

(** [index.add(x)]: the rows must have the dimension of the index. *)
Definition add (ix : IndexFlatL2) (x : list (list Q)) : result IndexFlatL2 :=
  if forallb (λ v, length v =? d ix)%nat x
  then Ok {| d := d ix; xb := xb ix ++ x |}
  else Raise AssertionError.

(** A hit is a distance with the label (position) of a stored vector. *)
Definition hit : Type := Q * Z.

Fixpoint insert_hit (h : hit) (l : list hit) : list hit :=
  match l with
  | [] => [h]
  | h' :: l' =>
      if Qle_bool h.1 h'.1 then h :: l else h' :: insert_hit h l'
  end.

Definition scan (ix : IndexFlatL2) (q : list Q) : list hit :=
  imap (λ i v, (l2sqr q v, Z.of_nat i)) (xb ix).

Definition ranked (ix : IndexFlatL2) (q : list Q) : list hit :=
  foldr insert_hit [] (scan ix q).

(** Distance stored in an unfilled slot (largest finite float32). *)
Definition FLT_MAX : Q := 340282346638528859811704183484516925440 # 1.

Definition search_row (ix : IndexFlatL2) (k : nat) (q : list Q) : list hit :=
  take k (ranked ix q) ++ replicate (k - ntotal ix) (FLT_MAX, (-1)%Z).

(** [distances, indices = index.search(x, k)] *)
Definition search (ix : IndexFlatL2) (x : list (list Q)) (k : Z)
  : result (list (list Q) * list (list Z)) :=
  _ ← py_assert (forallb (λ q, length q =? d ix)%nat x);
  _ ← py_assert (0 <? k)%Z;
  let rows := map (search_row ix (Z.to_nat k)) x in
  Ok (map (map fst) rows, map (map snd) rows).

End Faiss.

(** [a.shape[1]] of a two-dimensional array given by its rows. *)
Definition shape1 (a : list (list Q)) : result nat :=
  match a with
  | [] => Raise IndexError
  | v :: _ => Ok (length v)
  end.

(** The retrieval step shared by [rag] and [retrieve_documents]:
    [distances, indices = index.search(query_embedding, k)] followed by
    [[documents[idx] for idx in indices[0]]]. *)
Definition lookup_hits (ix : Faiss.IndexFlatL2) (documents : list string)
    (query_embedding : list (list Q)) (k : Z) : result (list string) :=
  '(distances, indices) ← Faiss.search ix query_embedding k;
  row ← getitem indices 0;
  comprehension (getitem documents) row.

(** ** Pretrained models (external collaborators) *)

(** [AutoTokenizer]: token ids of one text (special tokens included,
    truncated to the model limit) and the padding token. *)
Record Tokenizer : Type := {
  tokenize : string → list Z;
  pad_token_id : Z
}.

(** [AutoModel]: [last_hidden_state] of one padded row, one hidden
    vector per position, from [input_ids] and [attention_mask]. *)
Record Model : Type := {
  hidden_size : nat;
  last_hidden_state : list Z → list Z → list (list Q)
}.

(** The seq2seq generator: [encode] (with an optional [max_length]),
    [generate] (inputs, [max_length], [num_beams], [early_stopping]) and
    [decode]. *)
Record Generator : Type := {
  gen_encode : string → option nat → list Z;
  gen_generate : list Z → nat → nat → bool → list (list Z);
  gen_decode : list Z → string
}.

(** One row of the batch produced by [tokenizer(texts, padding=True, ...)]. *)
Record encoding : Type := { input_ids : list Z; attention_mask : list Z }.

(** ** First FAISS example: [embed] and [rag] *)

Module Example1.

(** Global names read by [embed] and [rag]. *)
Record globals : Type := {
  tokenizer : Tokenizer;
  model : Model;
  documents : list string;
  index : Faiss.IndexFlatL2;
  generator : Generator
}.

(** [tokenizer(texts, padding=True, truncation=True, return_tensors="pt")]:
    every row is padded on the right to the longest row of the batch. *)
Definition tokenizer_call (tk : Tokenizer) (texts : list string) : list encoding :=
  let toks := map (tokenize tk) texts in
  let width := max_list (map length toks) in
  map (λ t, {| input_ids := t ++ replicate (width - length t) (pad_token_id tk);
               attention_mask := replicate (length t) 1 ++
                                 replicate (width - length t) 0 |}) toks.

Definition Qsum (l : list Q) : Q := foldr Qplus 0%Q l.

(** [.mean(dim=1)] on one row: the mean over all positions, padding
    positions included, component by component. *)
Definition mean_dim1 (hidden : nat) (h : list (list Q)) : list Q :=
  map (λ j, Qsum (map (λ v, nth j v 0%Q) h) / inject_Z (Z.of_nat (length h)))%Q
      (seq 0 hidden).

Definition embed_with (tk : Tokenizer) (m : Model) (texts : list string)
  : list (list Q) :=
  let inputs := tokenizer_call tk texts in
  map (λ e, mean_dim1 (hidden_size m)
              (last_hidden_state m (input_ids e) (attention_mask e))) inputs.

(** [embed(texts)]: [tokenizer] and [model] are looked up when called. *)
Definition embed (texts : list string) : prog globals (list (list Q)) :=
  tk ← global tokenizer;
  m ← global model;
  mret (embed_with tk m texts).

(** The cell up to [index.add]: the corpus is embedded and indexed. *)
Definition build (tk : Tokenizer) (m : Model) (g : Generator)
    (docs : list string) : result globals :=
  let document_embeddings := embed_with tk m docs in
  dim ← shape1 document_embeddings;
  ix ← Faiss.add (Faiss.new dim) document_embeddings;
  Ok {| tokenizer := tk; model := m; documents := docs; index := ix;
        generator := g |}.

(** Lines of [rag(question, top_k=1)] up to [retrieved_docs]. *)
Definition rag_retrieved_docs (question : string) (top_k : Z)
  : prog globals (list string) :=
  question_embedding ← embed [question];
  ix ← global index;
  '(distances, indices) ← eval (Faiss.search ix question_embedding top_k);
  docs ← global documents;
  row ← eval (getitem indices 0);
  eval (comprehension (getitem docs) row).

Definition rag (question : string) (top_k : Z) : prog globals string :=
  retrieved_docs ← rag_retrieved_docs question top_k;
  let input_text := Prompt.rag_input_text retrieved_docs question in
  gen ← global generator;
  let inputs := gen_encode gen input_text None in
  let outputs := gen_generate gen inputs 50 2 false in
  out0 ← eval (getitem outputs 0);
  mret (gen_decode gen out0).

End Example1.

(** [SentenceTransformer]: [encode] maps a list of sentences to the
    rows of a two-dimensional array. *)
Record SentenceTransformer : Type := {
  st_encode : list string → list (list Q)
}.

(** ** Second FAISS example: [retrieve_documents] and [generate_answer] *)

Module Example2.

Record globals : Type := {
  embedder : SentenceTransformer;
  documents : list string;
  index : Faiss.IndexFlatL2;
  generator : Generator
}.

(** Step 1 of the cell: document indexing using embeddings. *)
Definition build (e : SentenceTransformer) (g : Generator)
    (docs : list string) : result globals :=
  let document_embeddings := st_encode e docs in
  dim ← shape1 document_embeddings;
  ix ← Faiss.add (Faiss.new dim) document_embeddings;
  Ok {| embedder := e; documents := docs; index := ix; generator := g |}.

Definition retrieve_documents (query : string) (k : Z)
  : prog globals (list string) :=
  e ← global embedder;
  let query_embedding := st_encode e [query] in
  ix ← global index;
  '(distances, indices) ← eval (Faiss.search ix query_embedding k);
  docs ← global documents;
  row ← eval (getitem indices 0);
  eval (comprehension (getitem docs) row).

Definition generate_answer (question : string) (retrieved_docs : list string)
  : prog globals string :=
  let input_text := Prompt.generate_answer_input_text question retrieved_docs in
  gen ← global generator;
  let inputs := gen_encode gen input_text (Some 512%nat) in
  let outputs := gen_generate gen inputs 150 5 true in
  out0 ← eval (getitem outputs 0);
  mret (gen_decode gen out0).

End Example2.

(** ** ChromaDB / Groq example *)

(** [HuggingFaceEncoder]: calling the encoder on a list of texts gives a
    list of embeddings. *)
Record HuggingFaceEncoder : Type := {
  enc_call : list string → list (list Q)
}.

(** The hosted chat endpoint: model name and messages to the contents of
    the returned choices. *)
Record Groq : Type := {
  chat_completions_create : string → list Prompt.message → list string
}.

Module Chroma.

(** A stored record of a collection. *)
Record record : Type := {
  rec_id : string;
  rec_embedding : list Q;
  rec_metadata : gmap string string
}.

(** The part of a query result that [include=["metadatas", "distances"]]
    selects: one inner list per query embedding, in rank order. *)
Record query_result : Type := {
  metadatas : list (list (gmap string string));
  distances : list (list Q)
}.

(** The persistent client: collections by name, and the nearest
    neighbour search of the store (not modelled further). *)
Record client : Type := {
  collections : gmap string (list record);
  nn_search : list record → list (list Q) → Z → result query_result
}.

(** [collection.add(embeddings=..., metadatas=..., ids=...)] on the
    collection named [name]: the three lists must agree in length; the
    records are appended. *)
Definition add (name : string) (embeddings : list (list Q))
    (metas : list (gmap string string)) (ids : list string) (db : client)
  : result client :=
  match collections db !! name with
  | None => Raise ValueError
  | Some recs =>
      if (length embeddings =? length ids)%nat && (length metas =? length ids)%nat
      then
        let new :=
          zip_with (λ i em, {| rec_id := i; rec_embedding := em.1;
                               rec_metadata := em.2 |})
                   ids (zip embeddings metas) in
        Ok {| collections := <[name := recs ++ new]> (collections db);
              nn_search := nn_search db |}
      else Raise ValueError
  end.

(** [collection.query(query_embeddings=..., n_results=..., include=...)] *)
Definition query (name : string) (query_embeddings : list (list Q))
    (n_results : Z) (db : client) : result query_result :=
  match collections db !! name with
  | None => Raise ValueError
  | Some recs => nn_search db recs query_embeddings n_results
  end.

(** [db.get_or_create_collection(name=...)] *)
Definition get_or_create_collection (name : string) (db : client) : client :=
  match collections db !! name with
  | Some _ => db
  | None => {| collections := <[name := []]> (collections db);
               nn_search := nn_search db |}
  end.

(** Names of [db.list_collections()]. *)
Definition list_collections (db : client) : list string :=
  (map_to_list (collections db)).*1.

(** [db.create_collection(name=...)]: the name must be new.  A
    collection handle is the name of the collection. *)
Definition create_collection (name : string) (db : client)
  : result (string * client) :=
  match collections db !! name with
  | Some _ => Raise ValueError
  | None => Ok (name, {| collections := <[name := []]> (collections db);
                         nn_search := nn_search db |})
  end.

(** [db.get_collection(name=...)] *)
Definition get_collection (name : string) (db : client) : result string :=
  match collections db !! name with
  | Some _ => Ok name
  | None => Raise ValueError
  end.

End Chroma.

Module GroqRag.

(** A row of the loaded dataset (the columns the notebook uses). *)
Record raw_row : Type := {
  raw_id : string;
  raw_title : string;
  raw_content : string
}.

(** A row after [data.map(...)] and [remove_columns(...)]. *)
Record row : Type := {
  id : string;
  metadata : gmap string string
}.

Definition format_row (x : raw_row) : row :=
  {| id := raw_id x;
     metadata := <["title" := raw_title x]> (<["content" := raw_content x]> ∅) |}.

Definition format_data (raw : list raw_row) : list row := map format_row raw.

Record globals : Type := {
  data : list row;
  encoder : HuggingFaceEncoder;
  db : Chroma.client;
  groq_client : Groq
}.

Definition set_db (c : Chroma.client) (g : globals) : globals :=
  {| data := data g; encoder := encoder g; db := c;
     groq_client := groq_client g |}.

Definition collection_name : string := "groq_llama_3_rag".
Definition batch_size : nat := 128.

(** A call on the client or on a collection that may rebind its state. *)
Definition db_call (f : Chroma.client → result Chroma.client) : prog globals unit :=
  λ g, match f (db g) with
       | Ok c => (Ok tt, set_db c g)
       | Raise e => (Raise e, g)
       end.

(** [for x in l: body(x)] *)
Fixpoint for_each {S A} (l : list A) (body : A → prog S unit) : prog S unit :=
  match l with
  | [] => mret tt
  | x :: l' => _ ← body x; for_each l' body
  end.

(** [f'{x["title"]}: {x["content"]}'] *)
Definition chunk_of (x : gmap string string) : result string :=
  title ← dict_getitem x "title";
  content ← dict_getitem x "content";
  Ok (title +:+ ": " +:+ content).

(** Body of the insertion loop for the batch starting at [i]. *)
Definition insert_batch (collection : string) (i : nat) : prog globals unit :=
  dt ← global data;
  let i_end := (length dt `min` (i + batch_size))%nat in
  let batch := slice dt i i_end in
  let batch_metadata := map metadata batch in
  let ids := map id batch in
  _ ← eval (py_assert (length batch_metadata =? length ids)%nat);
  chunks ← eval (comprehension chunk_of batch_metadata);
  enc ← global encoder;
  let embeds := enc_call enc chunks in
  _ ← eval (py_assert (length embeds =? length ids)%nat);
  db_call (Chroma.add collection embeds batch_metadata ids).

(** The cell that creates the collection and populates it. *)
Definition populate : prog globals unit :=
  _ ← db_call (λ c, Ok (Chroma.get_or_create_collection collection_name c));
  c ← global db;
  let existing_collections := Chroma.list_collections c in
  collection ←
    (if bool_decide (collection_name ∉ existing_collections)
     then (λ g, match Chroma.create_collection collection_name (db g) with
                | Ok (h, c') => (Ok h, set_db c' g)
                | Raise e => (Raise e, g)
                end)
     else eval (Chroma.get_collection collection_name c));
  dt ← global data;
  for_each (range (length dt) batch_size) (insert_batch collection).

Definition get_docs (query : string) (top_k : Z) (collection : string)
  : prog globals (list string) :=
  enc ← global encoder;
  let xq := enc_call enc [query] in
  c ← global db;
  results ← eval (Chroma.query collection xq top_k c);
  let docs : list string :=
    sublist ← Chroma.metadatas results;
    metadata ← sublist;
    [dict_get metadata "content" ""] in
  mret docs.

Definition generate (query : string) (docs : list string) : prog globals string :=
  let messages := Prompt.messages query docs in
  client ← global groq_client;
  let choices := chat_completions_create client "llama3-70b-8192" messages in
  choice0 ← eval (getitem choices 0);
  mret choice0.

End GroqRag.

(** * Vocabulary of the properties *)

Section EmbedVocabulary.
Import Example1.

(** Width of the padded batch: the longest tokenised text. *)
Definition batch_width (tk : Tokenizer) (texts : list string) : nat :=
  max_list (map (λ t, length (tokenize tk t)) texts).

(** The output row for one text inside a batch padded to [width]. *)
Definition embed_row (tk : Tokenizer) (m : Model) (width : nat) (text : string)
  : list Q :=
  let t := tokenize tk text in
  mean_dim1 (hidden_size m)
    (last_hidden_state m
       (t ++ replicate (width - length t) (pad_token_id tk))
       (replicate (length t) 1 ++ replicate (width - length t) 0)).

End EmbedVocabulary.

(** The batch that the loop cuts at start index [i]. *)
Definition batch_at {A} (step : nat) (l : list A) (i : nat) : list A :=
  slice l i (length l `min` (i + step)).

Section IngestionVocabulary.
Import GroqRag.

(** The text embedded for a row whose metadata has both fields. *)
Definition chunk_text (md : gmap string string) : string :=
  dict_get md "title" "" +:+ ": " +:+ dict_get md "content" "".

Definition has_fields (r : row) : Prop :=
  is_Some (metadata r !! "title") ∧ is_Some (metadata r !! "content").




End IngestionVocabulary.

Section RankingVocabulary.
Import Faiss.

Definition by_distance (a b : hit) : Prop := (a.1 <= b.1)%Q.

(** A hit paired with the document its label selects, for the query
    vector [q]. *)
Definition hit_doc (ix : IndexFlatL2) (docs : list string) (q : list Q)
    (h : hit) (doc : string) : Prop :=
  ∃ i v, h = (l2sqr q v, Z.of_nat i) ∧ xb ix !! i = Some v ∧ docs !! i = Some doc.

End RankingVocabulary.

(** An encoder that returns one row per text, all of dimension [D]. *)
Definition encoder_wf (E : list string → list (list Q)) (D : nat) : Prop :=
  ∀ texts, length (E texts) = length texts ∧ Forall (λ v, length v = D) (E texts).




(** The usage lines of the second example:
    [retrieved_docs = retrieve_documents(question)] with the default
    [k=2], then [answer = generate_answer(question, retrieved_docs)]. *)
Definition example2_usage (question : string) : prog Example2.globals string :=
  retrieved_docs ← Example2.retrieve_documents question 2;
  Example2.generate_answer question retrieved_docs.


(** The document at the position a hit is labelled with. *)
Definition doc_at (docs : list string) (h : Faiss.hit) : string :=
  default "" (docs !! Z.to_nat h.2).

(** * Stand-ins for concrete runs

    Small stand-ins for the pretrained models, used to run the notebook
    functions on explicit inputs. *)

Module Demo.

Definition code_points (s : string) : list Z :=
  map (λ c, Z.of_nat (Ascii.nat_of_ascii c)) (String.list_ascii_of_string s).

Definition of_code_points (l : list Z) : string :=
  String.string_of_list_ascii (map (λ z, Ascii.ascii_of_nat (Z.to_nat z)) l).

(** One token per character; the hidden state of a position is its token
    id followed by 1. *)
Definition tk : Tokenizer := {| tokenize := code_points; pad_token_id := 0 |}.

Definition mdl : Model :=
  {| hidden_size := 2;
     last_hidden_state := λ ids mask, map (λ t, [inject_Z t; 1%Q]) ids |}.

(** A generator that echoes its prompt. *)
Definition echo : Generator :=
  {| gen_encode := λ s _, code_points s;
     gen_generate := λ ids _ _ _, [ids];
     gen_decode := of_code_points |}.

(** A sentence encoder: the length of the sentence followed by 1. *)
Definition st : SentenceTransformer :=
  {| st_encode := map (λ t, [inject_Z (Z.of_nat (String.length t)); 1%Q]) |}.

Definition enc : HuggingFaceEncoder :=
  {| enc_call := map (λ t, [inject_Z (Z.of_nat (String.length t))]) |}.

(** A store that answers every query with its first [n] records. *)
Definition first_n (recs : list Chroma.record) (xq : list (list Q)) (n : Z)
  : result Chroma.query_result :=
  Ok {| Chroma.metadatas :=
          map (λ _, map Chroma.rec_metadata (take (Z.to_nat n) recs)) xq;
        Chroma.distances := map (λ _, []) xq |}.

Definition groq : Groq := {| chat_completions_create := λ _ msgs, ["answer"] |}.

Definition docs1 : list string := ["aa"; "bb"; "cc"].

Definition g1 : Example1.globals :=
  {| Example1.tokenizer := tk; Example1.model := mdl;
     Example1.documents := docs1;
     Example1.index :=
       {| Faiss.d := 2; Faiss.xb := Example1.embed_with tk mdl docs1 |};
     Example1.generator := echo |}.

Definition docs2 : list string := ["a"; "bbb"; "cc"].

Definition g2 : Example2.globals :=
  {| Example2.embedder := st; Example2.documents := docs2;
     Example2.index := {| Faiss.d := 2; Faiss.xb := st_encode st docs2 |};
     Example2.generator := echo |}.

Definition raw3 : list GroqRag.raw_row :=
  [ {| GroqRag.raw_id := "2401.04088#0"; GroqRag.raw_title := "Mixtral of Experts";
       GroqRag.raw_content := "first chunk" |};
    {| GroqRag.raw_id := "2401.04088#1"; GroqRag.raw_title := "Mixtral of Experts";
       GroqRag.raw_content := "second chunk" |};
    {| GroqRag.raw_id := "2401.04088#2"; GroqRag.raw_title := "Mixtral of Experts";
       GroqRag.raw_content := "third chunk" |} ].

(** A dataset of 300 rows: three batches. *)
Definition raw300 : list GroqRag.raw_row := raw3 ++ replicate 297 (
  {| GroqRag.raw_id := "x"; GroqRag.raw_title := "t"; GroqRag.raw_content := "c" |}).

Definition gq (raw : list GroqRag.raw_row) : GroqRag.globals :=
  {| GroqRag.data := GroqRag.format_data raw; GroqRag.encoder := enc;
     GroqRag.db := {| Chroma.collections := ∅; Chroma.nn_search := first_n |};
     GroqRag.groq_client := groq |}.

(** A populated collection, one record without a ["content"] entry. *)
Definition gq_populated : GroqRag.globals :=
  {| GroqRag.data := []; GroqRag.encoder := enc;
     GroqRag.db :=
       {| Chroma.collections :=
            {[ GroqRag.collection_name :=
                 [ {| Chroma.rec_id := "r0"; Chroma.rec_embedding := [1%Q];
                      Chroma.rec_metadata := {[ "content" := "zero" ]} |};
                   {| Chroma.rec_id := "r1"; Chroma.rec_embedding := [2%Q];
                      Chroma.rec_metadata := {[ "title" := "untitled" ]} |};
                   {| Chroma.rec_id := "r2"; Chroma.rec_embedding := [3%Q];
                      Chroma.rec_metadata := {[ "content" := "two" ]} |} ] ]};
          Chroma.nn_search := first_n |};
     GroqRag.groq_client := groq |}.

(** An encoder that returns no embedding at all. *)
Definition enc_none : HuggingFaceEncoder := {| enc_call := λ _, [] |}.

Definition row_ok : GroqRag.row :=
  {| GroqRag.id := "r0";
     GroqRag.metadata := <["title" := "t"]> (<["content" := "c"]> ∅) |}.


(** A store over given rows, with an empty collection of the notebook's name. *)
Definition gq_rows (rows : list GroqRag.row) (e : HuggingFaceEncoder)
  : GroqRag.globals :=
  {| GroqRag.data := rows; GroqRag.encoder := e;
     GroqRag.db := {| Chroma.collections := {[ GroqRag.collection_name := [] ]};
                      Chroma.nn_search := first_n |};
     GroqRag.groq_client := groq |}.


End Demo.

(** * Properties *)

(** ** Strings and containment *)

Lemma str_app_nil_l (a : string) : "" +:+ a = a.
Proof. reflexivity. Qed.

Lemma str_app_cons (ch : Ascii.ascii) (a b : string) :
  String ch a +:+ b = String ch (a +:+ b).
Proof. reflexivity. Qed.

Lemma str_app_assoc (a b c : string) : (a +:+ b) +:+ c = a +:+ b +:+ c.
Proof.
  induction a as [|ch a IH]; [done|]. by rewrite !str_app_cons, IH.
Qed.

Lemma str_app_nil_r (a : string) : a +:+ "" = a.
Proof.
  induction a as [|ch a IH]; [done|]. by rewrite str_app_cons, IH.
Qed.

Lemma contains_refl (s : string) : contains s s.
Proof. exists "", "". by rewrite str_app_nil_r. Qed.

Lemma contains_app_l (s t u : string) : contains s t → contains (s +:+ u) t.
Proof.
  intros (pre & post & ->). exists pre, (post +:+ u).
  by rewrite !str_app_assoc.
Qed.

Lemma contains_app_r (s t u : string) : contains s t → contains (u +:+ s) t.
Proof.
  intros (pre & post & ->). exists (u +:+ pre), post.
  by rewrite !str_app_assoc.
Qed.

Lemma join_cons (sep x y : string) (l : list string) :
  join sep (x :: y :: l) = x +:+ sep +:+ join sep (y :: l).
Proof. reflexivity. Qed.


Lemma prefix_spec (t s : string) :
  String.prefix t s = true ↔ ∃ post, s = t +:+ post.
Proof.
  revert s. induction t as [|a t IH]; intros s.
  - split; [intros _; by exists s|by destruct s].
  - destruct s as [|b s]; cbn [String.prefix].
    { split; [done|by intros [? ?]]. }
    destruct (Ascii.ascii_dec a b) as [->|Hne].
    + rewrite IH. split; intros [post Hp]; exists post.
      * by rewrite str_app_cons, <- Hp.
      * rewrite str_app_cons in Hp. congruence.
    + split; [done|]. intros [post Hp].
      rewrite str_app_cons in Hp. congruence.
Qed.

(** The executable test [t in s] decides containment. *)
Lemma str_in_spec (t s : string) : str_in t s = true ↔ contains s t.
Proof.
  induction s as [|a s IH]; cbn [str_in].
  - rewrite orb_false_r, prefix_spec. split.
    + intros [post ->]. by exists "", post.
    + intros ([|c pre] & post & Hp); [by exists post|discriminate].
  - rewrite orb_true_iff, IH, prefix_spec. split.
    + intros [[post ->]|(pre & post & ->)].
      * by exists "", post.
      * by exists (String a pre), post.
    + intros ([|c pre] & post & Hp); [left; by exists post|].
      right. cbn in Hp. injection Hp as _ ->. by exists pre, post.
Qed.

Example rag_prompt_of_the_notebook :
  Prompt.rag_input_text ["The Eiffel Tower is 324 metres tall."]
                        "How tall is the Eiffel Tower?"
  = "The Eiffel Tower is 324 metres tall. How tall is the Eiffel Tower?".
Proof. reflexivity. Qed.

(** With a single document the system message is that document alone:
    the instruction text only appears between documents. *)
Example system_message_one_doc : Prompt.system_message ["doc A"] = "doc A".
Proof. reflexivity. Qed.

Example system_message_two_docs :
  str_in "doc A" (Prompt.system_message ["doc A"; "doc B"]) = true
  ∧ str_in "doc B" (Prompt.system_message ["doc A"; "doc B"]) = true
  ∧ str_in "CONTEXT:" (Prompt.system_message ["doc A"; "doc B"]) = true.
Proof. by vm_compute. Qed.


(** ** Running notebook functions *)

Ltac unfold_prog :=
  unfold mbind, mret, prog_bind, prog_ret, global, eval in *; cbn beta iota in *.

(** Closes frame goals: case analysis on every raised/returned value. *)
Ltac frame :=
  unfold_prog;
  repeat match goal with
         | |- context [match ?r with Ok _ => _ | Raise _ => _ end] => destruct r
         | |- context [let (_, _) := ?p in _] => destruct p
         | |- context [match ?p with (_, _) => _ end] => destruct p
         end;
  try reflexivity.


Lemma rag_retrieved_docs_run (question : string) (top_k : Z) (g : Example1.globals) :
  Example1.rag_retrieved_docs question top_k g
  = (lookup_hits (Example1.index g) (Example1.documents g)
       (Example1.embed_with (Example1.tokenizer g) (Example1.model g) [question])
       top_k, g).
Proof.
  unfold Example1.rag_retrieved_docs, lookup_hits, Example1.embed. unfold_prog.
  destruct (Faiss.search _ _ _) as [[ds ixs]|e]; [|done].
  unfold mbind, result_bind. by destruct (getitem ixs 0).
Qed.

Lemma retrieve_documents_run (query : string) (k : Z) (g : Example2.globals) :
  Example2.retrieve_documents query k g
  = (lookup_hits (Example2.index g) (Example2.documents g)
       (st_encode (Example2.embedder g) [query]) k, g).
Proof.
  unfold Example2.retrieve_documents, lookup_hits. unfold_prog.
  destruct (Faiss.search _ _ _) as [[ds ixs]|e]; [|done].
  unfold mbind, result_bind. by destruct (getitem ixs 0).
Qed.

(** What each function hands to its generator. *)
Lemma rag_run (question : string) (top_k : Z) (g : Example1.globals) :
  Example1.rag question top_k g
  = (retrieved_docs ← lookup_hits (Example1.index g) (Example1.documents g)
                        (Example1.embed_with (Example1.tokenizer g)
                           (Example1.model g) [question]) top_k;
     let gen := Example1.generator g in
     out0 ← getitem (gen_generate gen
                       (gen_encode gen
                          (Prompt.rag_input_text retrieved_docs question) None)
                       50 2 false) 0;
     Ok (gen_decode gen out0), g).
Proof.
  unfold Example1.rag. unfold mbind at 1. unfold prog_bind.
  rewrite rag_retrieved_docs_run.
  destruct (lookup_hits _ _ _ _) as [rdocs|e]; [|done].
  unfold_prog. cbn. by destruct (getitem _ 0).
Qed.

Lemma generate_answer_run (question : string) (retrieved_docs : list string)
    (g : Example2.globals) :
  Example2.generate_answer question retrieved_docs g
  = (let gen := Example2.generator g in
     out0 ← getitem (gen_generate gen
                       (gen_encode gen
                          (Prompt.generate_answer_input_text question retrieved_docs)
                          (Some 512%nat))
                       150 5 true) 0;
     Ok (gen_decode gen out0), g).
Proof.
  unfold Example2.generate_answer. unfold_prog. cbn. by destruct (getitem _ 0).
Qed.

Lemma generate_run (query : string) (docs : list string) (g : GroqRag.globals) :
  GroqRag.generate query docs g
  = (getitem (chat_completions_create (GroqRag.groq_client g) "llama3-70b-8192"
                (Prompt.messages query docs)) 0, g).
Proof.
  unfold GroqRag.generate. unfold_prog. by destruct (getitem _ 0).
Qed.

(** C8: every query-time operation hands back the global store it was
    given, so the built index (FAISS index or ChromaDB collections) and
    the document corpus are the same after the call as before it, whether
    the call returns or raises. *)
Theorem query_time_operations_leave_store_unchanged :
  (∀ question top_k g, (Example1.rag question top_k g).2 = g)
  ∧ (∀ query k g, (Example2.retrieve_documents query k g).2 = g)
  ∧ (∀ question docs g, (Example2.generate_answer question docs g).2 = g)
  ∧ (∀ query top_k collection g, (GroqRag.get_docs query top_k collection g).2 = g)
  ∧ (∀ query docs g, (GroqRag.generate query docs g).2 = g).
Proof.
  repeat split; intros.
  - unfold Example1.rag. unfold mbind at 1. unfold prog_bind.
    rewrite rag_retrieved_docs_run. destruct (lookup_hits _ _ _ _); [|done].
    frame.
  - by rewrite retrieve_documents_run.
  - unfold Example2.generate_answer. frame.
  - unfold GroqRag.get_docs. frame.
  - unfold GroqRag.generate. frame.
Qed.

(** ** The embedder of the first example *)

Section Embed.
Import Example1.

Lemma embed_with_rows (tk : Tokenizer) (m : Model) (texts : list string) :
  embed_with tk m texts = map (embed_row tk m (batch_width tk texts)) texts.
Proof.
  unfold embed_with, tokenizer_call, batch_width, embed_row.
  rewrite !map_map. reflexivity.
Qed.

Lemma length_mean_dim1 (hidden : nat) (h : list (list Q)) :
  length (mean_dim1 hidden h) = hidden.
Proof. unfold mean_dim1. by rewrite length_map, length_seq. Qed.

End Embed.



(** ** [get_docs] *)



(** ** The batched insertion loop *)

Section Batches.
Context {A : Type}.
Implicit Types (l : list A) (i n step fuel : nat).

Lemma range_from_spec fuel i n step :
  (0 < step)%nat → (n - i ≤ fuel)%nat →
  range_from fuel i n step
  = if (i <? n)%nat then i :: range_from (fuel - 1) (i + step) n step else [].
Proof.
  intros Hstep Hfuel. destruct fuel as [|fuel]; cbn [range_from].
  - destruct (Nat.ltb_spec i n); [lia|done].
  - by replace (S fuel - 1)%nat with fuel by lia.
Qed.

(** The start indices are the multiples of the step below [n]. *)
Lemma range_from_lookup fuel i n step j s :
  (0 < step)%nat → (n - i ≤ fuel)%nat →
  range_from fuel i n step !! j = Some s → s = (i + j * step)%nat ∧ (s < n)%nat.
Proof.
  intros Hstep. revert i j. induction fuel as [|fuel IH]; intros i j Hfuel; [done|].
  cbn [range_from]. destruct (Nat.ltb_spec i n) as [Hlt|]; [|done].
  destruct j as [|j]; cbn.
  - intros [= <-]. lia.
  - intros Hj. apply IH in Hj; [lia|lia].
Qed.



End Batches.

Section Populate.
Import GroqRag.



Lemma chunks_ok (b : list row) :
  Forall has_fields b →
  comprehension chunk_of (map metadata b)
  = Ok (map (λ r, chunk_text (metadata r)) b).
Proof.
  induction 1 as [|r b [[t Ht] [c Hc]] _ IH]; [done|].
  cbn [map comprehension]. rewrite IH.
  unfold chunk_of, chunk_text, dict_getitem, dict_get. by rewrite Ht, Hc.
Qed.



End Populate.

Section PopulateRun.
Import GroqRag.



Lemma list_collections_elem (name : string) (c : Chroma.client) :
  name ∈ Chroma.list_collections c ↔ is_Some (Chroma.collections c !! name).
Proof.
  unfold Chroma.list_collections. rewrite list_elem_of_fmap. split.
  - intros ([k v] & -> & Hkv). apply elem_of_map_to_list in Hkv. by eexists.
  - intros [v Hv]. exists (name, v). split; [done|].
    by apply elem_of_map_to_list.
Qed.


End PopulateRun.


(** ** The flat index: ranking *)

Section Ranking.
Import Faiss.

Lemma insert_hit_perm (h : hit) (l : list hit) : insert_hit h l ≡ₚ h :: l.
Proof.
  induction l as [|h' l IH]; [done|]. cbn.
  destruct (Qle_bool h.1 h'.1); [done|].
  rewrite IH. apply Permutation_swap.
Qed.

Lemma insert_hit_sorted (h : hit) (l : list hit) :
  StronglySorted by_distance l → StronglySorted by_distance (insert_hit h l).
Proof.
  induction 1 as [|h' l Hs IH Hall]; cbn.
  - repeat constructor.
  - destruct (Qle_bool h.1 h'.1) eqn:E.
    + apply Qle_bool_iff in E. constructor; [by constructor|].
      constructor; [done|].
      eapply Forall_impl; [exact Hall|]. unfold by_distance.
      intros x Hx. by apply Qle_trans with h'.1.
    + assert (h'.1 <= h.1)%Q as Hle.
      { destruct (Qlt_le_dec h.1 h'.1) as [Hlt|]; [|done].
        apply Qlt_le_weak, Qle_bool_iff in Hlt. congruence. }
      constructor; [done|].
      rewrite insert_hit_perm. by constructor.
Qed.

Lemma ranked_perm (ix : IndexFlatL2) (q : list Q) : ranked ix q ≡ₚ scan ix q.
Proof.
  unfold ranked. induction (scan ix q) as [|h l IH]; [done|].
  cbn. by rewrite insert_hit_perm, IH.
Qed.

Lemma ranked_sorted (ix : IndexFlatL2) (q : list Q) :
  StronglySorted by_distance (ranked ix q).
Proof.
  unfold ranked. induction (scan ix q) as [|h l IH]; [constructor|].
  cbn. by apply insert_hit_sorted.
Qed.

Lemma length_ranked (ix : IndexFlatL2) (q : list Q) :
  length (ranked ix q) = ntotal ix.
Proof.
  rewrite (Permutation_length (ranked_perm ix q)). apply length_imap.
Qed.

(** Every ranked hit is a stored vector with its position and its
    distance to the query. *)
Lemma elem_of_ranked (ix : IndexFlatL2) (q : list Q) (h : hit) :
  h ∈ ranked ix q →
  ∃ i v, xb ix !! i = Some v ∧ h = (l2sqr q v, Z.of_nat i).
Proof.
  rewrite (ranked_perm ix q). unfold scan.
  intros (i & Hi)%list_elem_of_lookup_1.
  rewrite list_lookup_imap in Hi.
  destruct (xb ix !! i) as [v|] eqn:E; [|done].
  injection Hi as <-. by exists i, v.
Qed.



End Ranking.

(** ** Retrieval through the flat index *)

Section Retrieval.
Import Faiss.

Lemma getitem_nat {A} (l : list A) (i : nat) (x : A) :
  l !! i = Some x → getitem l (Z.of_nat i) = Ok x.
Proof.
  intros Hi. pose proof (lookup_lt_Some _ _ _ Hi) as Hlt. unfold getitem.
  destruct (Z.ltb_spec (Z.of_nat i) 0); [lia|].
  destruct (Z.leb_spec 0 (Z.of_nat i)); [|lia].
  destruct (Z.ltb_spec (Z.of_nat i) (Z.of_nat (length l))); [|lia].
  cbn. by rewrite Nat2Z.id, Hi.
Qed.

(** The subscript [-1] selects the last element. *)
Lemma getitem_minus_one {A} (l : list A) (x : A) :
  last l = Some x → getitem l (-1) = Ok x.
Proof.
  intros Hl. rewrite last_lookup in Hl.
  pose proof (lookup_lt_Some _ _ _ Hl) as Hlt. unfold getitem.
  destruct (Z.ltb_spec (-1) 0); [|lia].
  destruct (Z.leb_spec 0 (-1 + Z.of_nat (length l))); [|lia].
  destruct (Z.ltb_spec (-1 + Z.of_nat (length l)) (Z.of_nat (length l))); [|lia].
  cbn. replace (Z.to_nat (-1 + Z.of_nat (length l))) with (Nat.pred (length l)) by lia.
  by rewrite Hl.
Qed.

Lemma getitem_empty {A} (i : Z) : getitem (@nil A) i = Raise IndexError.
Proof.
  unfold getitem. rewrite lookup_nil. by destruct (_ && _).
Qed.

Lemma comprehension_ok {A B} (f : A → result B) (l : list A) (ys : list B) :
  Forall2 (λ x y, f x = Ok y) l ys → comprehension f l = Ok ys.
Proof. induction 1 as [|x y l ys Hx _ IH]; [done|]. cbn. by rewrite Hx, IH. Qed.

Lemma search_one (ix : IndexFlatL2) (q : list Q) (k : Z) :
  length q = d ix → (0 < k)%Z →
  search ix [q] k
  = Ok ([(search_row ix (Z.to_nat k) q).*1], [(search_row ix (Z.to_nat k) q).*2]).
Proof.
  intros Hq Hk. unfold search. cbn [forallb].
  rewrite Hq, Nat.eqb_refl. cbn.
  destruct (Z.ltb_spec 0 k); [done|lia].
Qed.

Lemma lookup_hits_one (ix : IndexFlatL2) (documents : list string)
    (q : list Q) (k : Z) :
  length q = d ix → (0 < k)%Z →
  lookup_hits ix documents [q] k
  = comprehension (getitem documents) (search_row ix (Z.to_nat k) q).*2.
Proof. intros Hq Hk. unfold lookup_hits. by rewrite search_one. Qed.

(** Labels of ranked hits are positions of the corpus. *)
Lemma ranked_labels_ok (ix : IndexFlatL2) (documents : list string)
    (q : list Q) (hits : list hit) :
  ntotal ix = length documents → hits ⊆ ranked ix q →
  ∃ docs,
    Forall2 (λ h doc, ∃ i v, h = (l2sqr q v, Z.of_nat i) ∧ xb ix !! i = Some v
                             ∧ documents !! i = Some doc) hits docs.
Proof.
  intros Hn. induction hits as [|h hits IH]; intros Hsub.
  - exists []. constructor.
  - destruct IH as [docs Hdocs]; [set_solver|].
    destruct (elem_of_ranked ix q h) as (i & v & Hi & ->); [set_solver|].
    destruct (lookup_lt_is_Some_2 documents i) as [doc Hdoc].
    { rewrite <- Hn. by eapply lookup_lt_Some. }
    exists (doc :: docs). constructor; [|done]. by exists i, v.
Qed.

Lemma search_row_full (ix : IndexFlatL2) (q : list Q) (k : nat) :
  (k ≤ ntotal ix)%nat → search_row ix k q = take k (ranked ix q).
Proof.
  intros Hk. unfold search_row.
  replace (k - ntotal ix)%nat with 0%nat by lia. apply app_nil_r.
Qed.

Lemma search_row_short (ix : IndexFlatL2) (q : list Q) (k : nat) :
  (ntotal ix ≤ k)%nat →
  search_row ix k q
  = ranked ix q ++ replicate (k - ntotal ix) (FLT_MAX, (-1)%Z).
Proof.
  intros Hk. unfold search_row. rewrite take_ge; [done|].
  by rewrite length_ranked.
Qed.

End Retrieval.

(** ** Encoders and built indices *)

Lemma embed_with_wf (tk : Tokenizer) (m : Model) :
  encoder_wf (Example1.embed_with tk m) (hidden_size m).
Proof.
  intros texts. rewrite embed_with_rows. split; [by rewrite length_map|].
  apply Forall_map, Forall_forall. intros t _. apply length_mean_dim1.
Qed.

Lemma encoder_wf_one (E : list string → list (list Q)) (D : nat) (text : string) :
  encoder_wf E D → ∃ q, E [text] = [q] ∧ length q = D.
Proof.
  intros Hwf. destruct (Hwf [text]) as [Hlen Hall].
  destruct (E [text]) as [|q [|]]; try done.
  exists q. split; [done|]. by inversion Hall.
Qed.

Ltac unfold_result := unfold mbind, mret, result_bind, result_ret in *.

(** [index = faiss.IndexFlatL2(dim)] followed by [index.add(x)]. *)
Lemma faiss_add_new (dim : nat) (x : list (list Q)) (ix : Faiss.IndexFlatL2) :
  Faiss.add (Faiss.new dim) x = Ok ix →
  Faiss.d ix = dim ∧ Faiss.xb ix = x ∧ Forall (λ v, length v = dim) x.
Proof.
  unfold Faiss.add, Faiss.new. cbn [Faiss.d Faiss.xb app].
  destruct (forallb _ _) eqn:E; [|done]. intros [= <-]. cbn.
  repeat split. apply Forall_forall. intros w Hw.
  rewrite forallb_forall in E. apply Nat.eqb_eq, E. by apply list_elem_of_In.
Qed.

Lemma shape1_inv (x : list (list Q)) (dim : nat) :
  shape1 x = Ok dim → ∃ v x', x = v :: x' ∧ length v = dim.
Proof. destruct x as [|v x']; [done|]. intros [= <-]. by exists v, x'. Qed.

Lemma build1_inv (tk : Tokenizer) (m : Model) (gen : Generator)
    (docs : list string) (g : Example1.globals) :
  Example1.build tk m gen docs = Ok g →
  docs ≠ [] ∧ Example1.tokenizer g = tk ∧ Example1.model g = m
  ∧ Example1.documents g = docs
  ∧ Faiss.xb (Example1.index g) = Example1.embed_with tk m docs
  ∧ Faiss.d (Example1.index g) = hidden_size m.
Proof.
  unfold Example1.build. unfold_result.
  destruct (shape1 _) as [dim|] eqn:Es; [|done].
  destruct (Faiss.add _ _) as [ix|] eqn:Ea; [|done]. intros [= <-]. cbn.
  apply faiss_add_new in Ea as (Hd & Hxb & Hall).
  apply shape1_inv in Es as (v & x' & Hx & Hv).
  destruct (embed_with_wf tk m docs) as [Hlen Hdim].
  rewrite Hx in Hlen, Hdim. inversion Hdim; subst.
  repeat split; first [done | congruence | by intros ->].
Qed.

Lemma build2_inv (e : SentenceTransformer) (D : nat) (gen : Generator)
    (docs : list string) (g : Example2.globals) :
  encoder_wf (st_encode e) D →
  Example2.build e gen docs = Ok g →
  docs ≠ [] ∧ Example2.embedder g = e ∧ Example2.documents g = docs
  ∧ Faiss.xb (Example2.index g) = st_encode e docs
  ∧ Faiss.d (Example2.index g) = D.
Proof.
  intros Hwf. unfold Example2.build. unfold_result.
  destruct (shape1 _) as [dim|] eqn:Es; [|done].
  destruct (Faiss.add _ _) as [ix|] eqn:Ea; [|done]. intros [= <-]. cbn.
  apply faiss_add_new in Ea as (Hd & Hxb & Hall).
  apply shape1_inv in Es as (v & x' & Hx & Hv).
  destruct (Hwf docs) as [Hlen Hdim].
  rewrite Hx in Hlen, Hdim. inversion Hdim; subst.
  repeat split; first [done | congruence | by intros ->].
Qed.

(** A non-empty corpus is always indexed. *)
Lemma build1_ok (tk : Tokenizer) (m : Model) (gen : Generator)
    (docs : list string) :
  docs ≠ [] → is_ok (Example1.build tk m gen docs) = true.
Proof.
  intros Hne. unfold Example1.build. unfold_result.
  destruct (embed_with_wf tk m docs) as [Hlen Hdim].
  destruct (Example1.embed_with tk m docs) as [|v x] eqn:E.
  { destruct docs; done. }
  cbn [shape1]. unfold Faiss.add, Faiss.new. cbn [Faiss.d].
  assert (forallb (λ w, length w =? length v)%nat (v :: x) = true) as ->; [|done].
  apply forallb_forall. intros w Hw%list_elem_of_In. apply Nat.eqb_eq.
  rewrite Forall_forall in Hdim.
  rewrite (Hdim w Hw). symmetry. apply Hdim. by left.
Qed.

(** ** Retrieval over an index aligned with the corpus *)

Section AlignedRetrieval.
Import Faiss.
Variables (ix : IndexFlatL2) (docs : list string) (q : list Q).
Hypothesis aligned : ntotal ix = length docs.
Hypothesis query_dim : length q = d ix.

Lemma hit_doc_getitem (hits : list hit) (rdocs : list string) :
  Forall2 (hit_doc ix docs q) hits rdocs →
  comprehension (getitem docs) hits.*2 = Ok rdocs.
Proof.
  intros H. apply comprehension_ok, Forall2_fmap_l.
  eapply Forall2_impl; [exact H|].
  intros h doc (i & v & -> & _ & Hdoc). by apply getitem_nat.
Qed.

Lemma retrieval_full (k : Z) :
  (0 < k ≤ Z.of_nat (length docs))%Z →
  let hits := take (Z.to_nat k) (ranked ix q) in
  search ix [q] k = Ok ([hits.*1], [hits.*2])
  ∧ length hits = Z.to_nat k
  ∧ StronglySorted by_distance hits
  ∧ ∃ rdocs, lookup_hits ix docs [q] k = Ok rdocs ∧ Forall2 (hit_doc ix docs q) hits rdocs.
Proof.
  intros Hk hits.
  assert (search_row ix (Z.to_nat k) q = hits) as Hrow.
  { apply search_row_full. lia. }
  split; [by rewrite search_one, Hrow by (done || lia)|].
  split; [unfold hits; rewrite length_take, length_ranked; lia|].
  split.
  { pose proof (ranked_sorted ix q) as Hs.
    rewrite <- (take_drop (Z.to_nat k) (ranked ix q)) in Hs.
    by apply StronglySorted_app_1_l in Hs. }
  destruct (ranked_labels_ok ix docs q hits aligned) as [rdocs Hr].
  { apply subseteq_take. }
  exists rdocs. split; [|done].
  rewrite lookup_hits_one, Hrow by (done || lia). by apply hit_doc_getitem.
Qed.

(** More results requested than vectors stored: the unfilled slots carry
    the label [-1], which the list comprehension resolves to the last
    document of the corpus. *)
Lemma retrieval_short (k : Z) (last_doc : string) :
  last docs = Some last_doc → (Z.of_nat (length docs) < k)%Z →
  ∃ rdocs,
    lookup_hits ix docs [q] k
    = Ok (rdocs ++ replicate (Z.to_nat k - length docs) last_doc)
    ∧ Forall2 (hit_doc ix docs q) (ranked ix q) rdocs.
Proof.
  intros Hlast Hk.
  destruct (ranked_labels_ok ix docs q (ranked ix q) aligned) as [rdocs Hr];
    [done|].
  exists rdocs. split; [|done].
  rewrite lookup_hits_one by (done || lia).
  rewrite search_row_short by lia. rewrite aligned, fmap_app, fmap_replicate.
  apply comprehension_ok, Forall2_app.
  - apply Forall2_fmap_l. eapply Forall2_impl; [exact Hr|].
    intros h doc (i & v & -> & _ & Hdoc). by apply getitem_nat.
  - cbn. apply Forall2_replicate. by apply getitem_minus_one.
Qed.

End AlignedRetrieval.


(** C2 (as the code behaves): when more results are requested than the
    corpus holds, both [rag] and [retrieve_documents] return [top_k]
    documents: one per stored document, followed by the last document of
    the corpus once for every unfilled result slot. *)
Theorem retrieval_beyond_corpus_repeats_last_document :
  (∀ tk m gen docs g question top_k,
      Example1.build tk m gen docs = Ok g →
      (Z.of_nat (length docs) < top_k)%Z →
      ∃ rdocs last_doc,
        last docs = Some last_doc ∧ length rdocs = length docs
        ∧ Example1.rag_retrieved_docs question top_k g
          = (Ok (rdocs ++ replicate (Z.to_nat top_k - length docs) last_doc), g))
  ∧ (∀ e D gen docs g query k,
       encoder_wf (st_encode e) D →
       Example2.build e gen docs = Ok g →
       (Z.of_nat (length docs) < k)%Z →
       ∃ rdocs last_doc,
         last docs = Some last_doc ∧ length rdocs = length docs
         ∧ Example2.retrieve_documents query k g
           = (Ok (rdocs ++ replicate (Z.to_nat k - length docs) last_doc), g)).
Proof.
  split.
  - intros tk m gen docs g question top_k Hb Hk.
    destruct (build1_inv _ _ _ _ _ Hb) as (Hne & Htk & Hm & Hd & Hxb & Hdim).
    destruct (encoder_wf_one _ _ question (embed_with_wf tk m)) as (q & Hq & Hlen).
    assert (Faiss.ntotal (Example1.index g) = length docs) as Hal.
    { unfold Faiss.ntotal. rewrite Hxb. apply embed_with_wf. }
    destruct (last docs) as [last_doc|] eqn:Hlast.
    2:{ apply last_None in Hlast. done. }
    destruct (retrieval_short (Example1.index g) docs q Hal) with (k := top_k)
      (last_doc := last_doc) as (rdocs & Hr & Hhd); [congruence|done|done|].
    exists rdocs, last_doc. repeat split.
    + rewrite <- (Forall2_length _ _ _ Hhd), length_ranked. done.
    + by rewrite rag_retrieved_docs_run, Htk, Hm, Hd, Hq, Hr.
  - intros e D gen docs g query k Hwf Hb Hk.
    destruct (build2_inv e D gen docs g Hwf Hb) as (Hne & He & Hd & Hxb & Hdim).
    destruct (encoder_wf_one _ D query Hwf) as (q & Hq & Hlen).
    assert (Faiss.ntotal (Example2.index g) = length docs) as Hal.
    { unfold Faiss.ntotal. rewrite Hxb. apply Hwf. }
    destruct (last docs) as [last_doc|] eqn:Hlast.
    2:{ apply last_None in Hlast. done. }
    destruct (retrieval_short (Example2.index g) docs q Hal) with (k := k)
      (last_doc := last_doc) as (rdocs & Hr & Hhd); [congruence|done|done|].
    exists rdocs, last_doc. repeat split.
    + rewrite <- (Forall2_length _ _ _ Hhd), length_ranked. done.
    + by rewrite retrieve_documents_run, He, Hd, Hq, Hr.
Qed.

(** ** Exact matches *)

Section Distance.
Import Faiss.
Local Open Scope Q_scope.





End Distance.



(** ** One embedder for corpus and query *)



(** * Concrete runs *)

Lemma demo_st_wf : encoder_wf (st_encode Demo.st) 2.
Proof.
  intros texts. cbn. split; [apply length_map|].
  apply Forall_map, Forall_forall. done.
Qed.


Example demo_build1 : Example1.build Demo.tk Demo.mdl Demo.echo Demo.docs1 = Ok Demo.g1.
Proof. reflexivity. Qed.

Example demo_build2 : Example2.build Demo.st Demo.echo Demo.docs2 = Ok Demo.g2.
Proof. reflexivity. Qed.

(** The corpus has three documents; five are requested. *)
Example demo_retrieve_beyond_corpus :
  (Example2.retrieve_documents "dd" 5 Demo.g2).1 = Ok ["cc"; "a"; "bbb"; "cc"; "cc"].
Proof. vm_compute. reflexivity. Qed.

Example demo_rag_beyond_corpus :
  (Example1.rag_retrieved_docs "bb" 4 Demo.g1).1 = Ok ["bb"; "aa"; "cc"; "cc"].
Proof. vm_compute. reflexivity. Qed.

Example demo_rag_echo :
  (Example1.rag "bb" 1 Demo.g1).1 = Ok "bb bb".
Proof. vm_compute. reflexivity. Qed.

Example demo_get_docs :
  (GroqRag.get_docs "q" 3 GroqRag.collection_name Demo.gq_populated).1
  = Ok ["zero"; ""; "two"].
Proof. vm_compute. reflexivity. Qed.

Example demo_populate :
  match GroqRag.populate (Demo.gq Demo.raw3) with
  | (Ok _, g') =>
      (map Chroma.rec_id <$>
         Chroma.collections (GroqRag.db g') !! GroqRag.collection_name)
      = Some ["2401.04088#0"; "2401.04088#1"; "2401.04088#2"]
  | _ => False
  end.
Proof. vm_compute. reflexivity. Qed.

(** ** Instances of the theorems on the concrete runs *)











Lemma retrieval_beyond_corpus_repeats_last_document_witness :
  (∃ rdocs, length rdocs = 3%nat
            ∧ Example1.rag_retrieved_docs "bb" 4 Demo.g1
              = (Ok (rdocs ++ ["cc"]), Demo.g1))
  ∧ (∃ rdocs, length rdocs = 3%nat
              ∧ Example2.retrieve_documents "dd" 5 Demo.g2
                = (Ok (rdocs ++ ["cc"; "cc"]), Demo.g2)).
Proof.
  split.
  - destruct (proj1 retrieval_beyond_corpus_repeats_last_document
                Demo.tk Demo.mdl Demo.echo Demo.docs1 Demo.g1 "bb" 4 eq_refl)
      as (rdocs & last_doc & [= <-] & Hlen & Hrun); [cbn; lia|].
    by exists rdocs.
  - destruct (proj2 retrieval_beyond_corpus_repeats_last_document
                Demo.st 2%nat Demo.echo Demo.docs2 Demo.g2 "dd" 5
                demo_st_wf eq_refl)
      as (rdocs & last_doc & [= <-] & Hlen & Hrun); [cbn; lia|].
    by exists rdocs.
Defined.


(** * Further properties of the glue code *)

(** ** Shape of the assembled prompts *)

Lemma str_length_app (a b : string) :
  String.length (a +:+ b) = (String.length a + String.length b)%nat.
Proof.
  induction a as [|ch a IH]; [done|]. rewrite str_app_cons. cbn. by rewrite IH.
Qed.

Lemma join_length (sep : string) (l : list string) :
  String.length (join sep l)
  = (sum_list_with String.length l + (length l - 1) * String.length sep)%nat.
Proof.
  induction l as [|x l IH]; [done|].
  destruct l as [|y l]; [cbn; lia|].
  rewrite join_cons, !str_length_app, IH. cbn. lia.
Qed.

(** X1: the size of each prompt is fixed by the sizes of its parts: the
    documents, one separator between neighbours, and the query with the
    fixed text of the template.  Nothing is dropped or repeated. *)
Theorem prompt_lengths (query : string) (docs : list string) :
  String.length (Prompt.rag_input_text docs query)
  = (sum_list_with String.length docs + (length docs - 1) + 1
     + String.length query)%nat
  ∧ String.length (Prompt.generate_answer_input_text query docs)
    = (31 + String.length query + sum_list_with String.length docs
       + (length docs - 1))%nat
  ∧ String.length (Prompt.system_message docs)
    = (sum_list_with String.length docs + (length docs - 1) * 109)%nat.
Proof.
  unfold Prompt.rag_input_text, Prompt.generate_answer_input_text,
    Prompt.system_message.
  rewrite !str_length_app, !join_length.
  change (String.length " ") with 1%nat.
  change (String.length "summarize: question: ") with 21%nat.
  change (String.length " context: ") with 10%nat.
  change (String.length Prompt.system_literal) with 109%nat.
  repeat split; lia.
Qed.

(** X2: joining the concatenation of two non-empty document lists is the
    two joins with one separator between them. *)
Theorem join_app (sep : string) (l1 l2 : list string) :
  l1 ≠ [] → l2 ≠ [] →
  join sep (l1 ++ l2) = join sep l1 +:+ sep +:+ join sep l2.
Proof.
  intros H1 H2. induction l1 as [|x l1 IH]; [done|].
  destruct l1 as [|y l1].
  - destruct l2 as [|z l2]; [done|]. reflexivity.
  - change ((x :: y :: l1) ++ l2) with (x :: y :: (l1 ++ l2)).
    rewrite !join_cons. change (y :: l1 ++ l2) with ((y :: l1) ++ l2).
    rewrite IH by done. by rewrite !str_app_assoc.
Qed.

Lemma join_app_witness :
  ["a"; "b"] ≠ [] ∧ ["c"] ≠ []
  ∧ join " " (["a"; "b"] ++ ["c"]) = join " " ["a"; "b"] +:+ " " +:+ join " " ["c"].
Proof.
  split; [done|]. split; [done|]. apply (join_app " " ["a"; "b"] ["c"]); done.
Defined.

(** X3: in [generate] the instruction text is the separator of the join.
    With no document the system message is empty and with one document it
    is that document alone; from two documents on it starts with the first
    document and carries the instruction text between documents. *)
Theorem system_message_shape (docs : list string) :
  ((length docs ≤ 1)%nat → Prompt.system_message docs = default "" (head docs))
  ∧ ((2 ≤ length docs)%nat →
       contains (Prompt.system_message docs) Prompt.system_literal
       ∧ ∃ d tail, head docs = Some d
                   ∧ Prompt.system_message docs
                     = d +:+ Prompt.system_literal +:+ tail).
Proof.
  unfold Prompt.system_message. split.
  - destruct docs as [|d [|d' rest]]; cbn; (done || lia).
  - destruct docs as [|d [|d' rest]]; cbn [length]; try lia. intros _.
    rewrite join_cons. split.
    + apply contains_app_r, contains_app_l, contains_refl.
    + by eexists _, _.
Qed.

(** ** Number and size of the batches *)

Lemma range_from_length_128 (fuel i n : nat) :
  (n - i ≤ fuel)%nat →
  length (range_from fuel i n 128) = ((n - i + 127) / 128)%nat.
Proof.
  revert i. induction fuel as [|fuel IH]; intros i Hfuel; cbn [range_from].
  - cbn. replace (n - i)%nat with 0%nat by lia. done.
  - destruct (Nat.ltb_spec i n) as [Hlt|Hge].
    + cbn [length]. rewrite IH by lia.
      destruct (Nat.le_gt_cases 128 (n - i)).
      * replace (n - i + 127)%nat with ((n - (i + 128) + 127) + 1 * 128)%nat by lia.
        rewrite Nat.div_add by lia. lia.
      * replace (n - (i + 128))%nat with 0%nat by lia.
        change ((0 + 127) / 128)%nat with 0%nat.
        apply Nat.div_unique with (n - i - 1)%nat; lia.
    + cbn. replace (n - i)%nat with 0%nat by lia. done.
Qed.

Lemma range_length_128 (n : nat) :
  length (range n 128) = ((n + 127) / 128)%nat.
Proof. unfold range. rewrite range_from_length_128 by lia. f_equal. lia. Qed.

(** X4: the insertion loop runs once per started block of 128 rows:
    [ceil(len(data) / 128)] iterations, none for an empty dataset. *)
Theorem number_of_batches (dt : list GroqRag.row) :
  length (range (length dt) GroqRag.batch_size) = ((length dt + 127) / 128)%nat
  ∧ (dt = [] → range (length dt) GroqRag.batch_size = []).
Proof.
  split; [apply range_length_128|]. by intros ->.
Qed.

(** The 10000 rows of the notebook give the 79 iterations its progress
    bar shows. *)
Example number_of_batches_10000 (dt : list GroqRag.row) :
  length dt = (100 * 100)%nat →
  length (range (length dt) GroqRag.batch_size) = 79%nat.
Proof.
  intros H. unfold GroqRag.batch_size. rewrite range_length_128, H.
  by vm_compute.
Qed.

Lemma batch_at_start (dt : list GroqRag.row) (j i : nat) :
  range (length dt) GroqRag.batch_size !! j = Some i →
  batch_at GroqRag.batch_size dt i = take 128 (drop (128 * j) dt).
Proof.
  intros Hj. unfold range in Hj.
  apply range_from_lookup in Hj as [-> Hlt]; [|unfold GroqRag.batch_size; lia|lia].
  unfold GroqRag.batch_size in *.
  replace (0 + j * 128)%nat with (128 * j)%nat in * by lia.
  unfold batch_at, slice.
  destruct (Nat.le_ge_cases (128 * j + 128) (length dt)).
  - rewrite Nat.min_r by lia. f_equal. lia.
  - rewrite Nat.min_l by lia.
    rewrite !take_ge; [done|rewrite length_drop; lia..].
Qed.

(** X5: the batch with number [j] holds the rows [128 j] up to
    [128 j + 128], cut at the end of the dataset: every batch before the
    last is full, the last one holds the remaining rows. *)
Theorem batch_sizes (dt : list GroqRag.row) (j i : nat) :
  range (length dt) GroqRag.batch_size !! j = Some i →
  batch_at GroqRag.batch_size dt i = take 128 (drop (128 * j) dt)
  ∧ length (batch_at GroqRag.batch_size dt i)
    = (128 `min` (length dt - 128 * j))%nat.
Proof.
  intros Hj. rewrite (batch_at_start dt j i Hj). split; [done|].
  rewrite length_take, length_drop. lia.
Qed.

Lemma batch_sizes_witness :
  let dt := GroqRag.format_data Demo.raw300 in
  range (length dt) GroqRag.batch_size !! 2%nat = Some 256%nat
  ∧ length (batch_at GroqRag.batch_size dt 256) = 44%nat.
Proof.
  intros dt.
  assert (range (length dt) GroqRag.batch_size !! 2%nat = Some 256%nat) as H
    by (vm_compute; reflexivity).
  split; [exact H|].
  rewrite (proj2 (batch_sizes dt 2 256 H)). vm_compute. reflexivity.
Defined.

(** ** Failures of the insertion loop *)

Section InsertBatch.
Import GroqRag.

(** The first assertion of the loop body compares the lengths of two
    columns of one batch and always passes; what is left is the chunk
    comprehension, the second assertion and [collection.add]. *)
Lemma insert_batch_cases (name : string) (i : nat) (g : globals) :
  insert_batch name i g
  = let b := batch_at batch_size (data g) i in
    match comprehension chunk_of (map metadata b) with
    | Raise e => (Raise e, g)
    | Ok chunks =>
        let embeds := enc_call (encoder g) chunks in
        if (length embeds =? length b)%nat
        then match Chroma.add name embeds (map metadata b) (map id b) (db g) with
             | Ok c => (Ok tt, set_db c g)
             | Raise e => (Raise e, g)
             end
        else (Raise AssertionError, g)
    end.
Proof.
  unfold insert_batch. unfold_prog. fold (batch_at batch_size (data g) i).
  cbn zeta. rewrite !length_map, Nat.eqb_refl. cbn [py_assert].
  destruct (comprehension _ _) as [chunks|e]; [|done].
  destruct (_ =? _)%nat; [|done]. reflexivity.
Qed.


End InsertBatch.


(** X7: when the encoder returns a number of embeddings different from
    the number of rows of the batch, the second assertion fails and
    nothing is added to the collection. *)
Theorem insert_batch_embedding_count (name : string) (i : nat)
    (g : GroqRag.globals) :
  let b := batch_at GroqRag.batch_size (GroqRag.data g) i in
  Forall has_fields b →
  length (enc_call (GroqRag.encoder g)
            (map (λ r, chunk_text (GroqRag.metadata r)) b)) ≠ length b →
  GroqRag.insert_batch name i g = (Raise AssertionError, g).
Proof.
  intros b Hf Hlen. rewrite insert_batch_cases. cbn zeta. fold b.
  rewrite (chunks_ok b Hf).
  by destruct (Nat.eqb_spec
                 (length (enc_call (GroqRag.encoder g)
                            (map (λ r, chunk_text (GroqRag.metadata r)) b)))
                 (length b)).
Qed.

(** X8: one iteration of the loop touches the named collection only: the
    dataset, the encoder and every other collection stay as they were, and
    an iteration that raises leaves the whole store unchanged. *)
Theorem insert_batch_frame (name : string) (i : nat) (g g' : GroqRag.globals)
    (r : result unit) :
  GroqRag.insert_batch name i g = (r, g') →
  GroqRag.data g' = GroqRag.data g
  ∧ GroqRag.encoder g' = GroqRag.encoder g
  ∧ GroqRag.groq_client g' = GroqRag.groq_client g
  ∧ (∀ other, other ≠ name →
       Chroma.collections (GroqRag.db g') !! other
       = Chroma.collections (GroqRag.db g) !! other)
  ∧ (is_ok r = false → g' = g).
Proof.
  rewrite insert_batch_cases. cbn zeta.
  destruct (comprehension _ _) as [chunks|e]; [|by intros [= <- <-]].
  destruct (_ =? _)%nat; [|by intros [= <- <-]].
  unfold Chroma.add.
  destruct (Chroma.collections (GroqRag.db g) !! name) as [recs|];
    [|by intros [= <- <-]].
  destruct (_ && _); [|by intros [= <- <-]].
  intros [= <- <-]. cbn. repeat split; try done.
  intros other Hne. by rewrite lookup_insert_ne.
Qed.


Lemma row_ok_has_fields : has_fields Demo.row_ok.
Proof. split; by eexists. Qed.


Lemma insert_batch_embedding_count_witness :
  let g := Demo.gq_rows [Demo.row_ok] Demo.enc_none in
  Forall has_fields (batch_at GroqRag.batch_size (GroqRag.data g) 0)
  ∧ GroqRag.insert_batch GroqRag.collection_name 0 g = (Raise AssertionError, g).
Proof.
  intros g.
  assert (Forall has_fields (batch_at GroqRag.batch_size (GroqRag.data g) 0)) as Hf.
  { change (Forall has_fields [Demo.row_ok]).
    constructor; [exact row_ok_has_fields|constructor]. }
  split; [exact Hf|].
  apply (insert_batch_embedding_count GroqRag.collection_name 0 g Hf). done.
Defined.

Lemma insert_batch_frame_witness :
  let g := Demo.gq_rows [Demo.row_ok] Demo.enc in
  let out := GroqRag.insert_batch GroqRag.collection_name 0 g in
  GroqRag.data out.2 = GroqRag.data g
  ∧ Chroma.collections (GroqRag.db out.2) !! "other"
    = Chroma.collections (GroqRag.db g) !! "other".
Proof.
  intros g out.
  destruct (insert_batch_frame GroqRag.collection_name 0 g out.2 out.1)
    as (Hd & _ & _ & Hother & _); [apply surjective_pairing|].
  split; [exact Hd|]. by apply Hother.
Defined.

(** ** The population cell as a whole *)

Section PopulateCell.
Import GroqRag.

Lemma get_or_create_lookup (name : string) (c : Chroma.client) :
  Chroma.collections (Chroma.get_or_create_collection name c) !! name
  = Some (default [] (Chroma.collections c !! name)).
Proof.
  unfold Chroma.get_or_create_collection.
  destruct (Chroma.collections c !! name) as [o|] eqn:E; cbn; [done|].
  apply lookup_insert_eq.
Qed.




End PopulateCell.

Lemma populate_unfold (g : GroqRag.globals) :
  GroqRag.populate g
  = GroqRag.for_each (range (length (GroqRag.data g)) GroqRag.batch_size)
      (GroqRag.insert_batch GroqRag.collection_name)
      (GroqRag.set_db
         (Chroma.get_or_create_collection GroqRag.collection_name (GroqRag.db g))
         g).
Proof.
  unfold GroqRag.populate. unfold_prog. unfold GroqRag.db_call at 1.
  cbn beta iota. cbn [GroqRag.db GroqRag.set_db GroqRag.data].
  rewrite bool_decide_eq_false_2.
  2:{ intros Hn. apply Hn, list_collections_elem.
      rewrite get_or_create_lookup. by eexists. }
  unfold Chroma.get_collection. by rewrite get_or_create_lookup.
Qed.

(** X9: the branch that calls [create_collection] is never taken, because
    [get_or_create_collection] has run before the test: the cell is the
    creation of the collection if it is missing, followed by the loop, and
    it never raises for a collection that already exists. *)
Theorem populate_is_get_or_create_then_loop (g : GroqRag.globals) :
  GroqRag.populate g
  = GroqRag.for_each (range (length (GroqRag.data g)) GroqRag.batch_size)
      (GroqRag.insert_batch GroqRag.collection_name)
      (GroqRag.set_db
         (Chroma.get_or_create_collection GroqRag.collection_name (GroqRag.db g))
         g).
Proof. apply populate_unfold. Qed.



(** ** From ingestion to retrieval *)




(** ** Padding and the embedding of a text *)




(** A shorter text is pooled over its padding as well: in the batch
    ["a"; "bb"] the text "a" gets another vector than alone, and querying
    with "a" retrieves "bb". *)
Example padded_text_is_not_its_own_top_hit :
  ∃ g, Example1.build Demo.tk Demo.mdl Demo.echo ["a"; "bb"] = Ok g
       ∧ (Example1.rag_retrieved_docs "a" 1 g).1 = Ok ["bb"].
Proof. eexists. split; [reflexivity|]. vm_compute. reflexivity. Qed.

(** ** More on retrieval through the flat index *)

Section HitsAndDocuments.
Import Faiss.

Lemma hit_doc_doc_at (ix : IndexFlatL2) (docs : list string) (q : list Q)
    (hits : list hit) (rdocs : list string) :
  Forall2 (hit_doc ix docs q) hits rdocs → rdocs = map (doc_at docs) hits.
Proof.
  induction 1 as [|h doc hits rdocs (i & v & -> & _ & Hdoc) _ IH]; [done|].
  cbn. f_equal; [|done]. unfold doc_at. cbn. by rewrite Nat2Z.id, Hdoc.
Qed.

Lemma doc_at_scan (ix : IndexFlatL2) (docs : list string) (q : list Q) :
  ntotal ix = length docs → map (doc_at docs) (scan ix q) = docs.
Proof.
  intros Hal. apply list_eq. intros i. unfold scan.
  rewrite list_lookup_fmap, list_lookup_imap.
  destruct (xb ix !! i) as [v|] eqn:Hv; cbn.
  - destruct (lookup_lt_is_Some_2 docs i) as [doc Hdoc].
    { rewrite <- Hal. by eapply lookup_lt_Some. }
    unfold doc_at. cbn. by rewrite Nat2Z.id, Hdoc.
  - symmetry. apply lookup_ge_None. rewrite <- Hal.
    by apply lookup_ge_None in Hv.
Qed.

Lemma search_row_take (ix : IndexFlatL2) (q : list Q) (k k' : nat) :
  (k ≤ k')%nat → search_row ix k q = take k (search_row ix k' q).
Proof.
  intros Hk. unfold search_row.
  rewrite take_app, take_take, take_replicate, length_take, length_ranked.
  f_equal; [f_equal; lia|f_equal; lia].
Qed.

Lemma comprehension_take {A B} (f : A → result B) (l : list A) (ys : list B)
    (n : nat) :
  comprehension f l = Ok ys → comprehension f (take n l) = Ok (take n ys).
Proof.
  revert ys n. induction l as [|x l IH]; intros ys n.
  - intros [= <-]. by destruct n.
  - cbn [comprehension]. destruct (f x) as [y|] eqn:Hx; [|done].
    destruct (comprehension f l) as [ys'|] eqn:Hl; [|done]. intros [= <-].
    destruct n as [|n]; [done|]. cbn [take comprehension].
    by rewrite Hx, (IH ys' n eq_refl).
Qed.

(** Requesting fewer results gives a prefix of the longer answer (the
    model ranks equal distances in stored order). *)
Lemma lookup_hits_prefix (ix : IndexFlatL2) (docs : list string)
    (x : list (list Q)) (k k' : Z) (rdocs : list string) :
  (0 < k ≤ k')%Z →
  lookup_hits ix docs x k' = Ok rdocs →
  lookup_hits ix docs x k = Ok (take (Z.to_nat k) rdocs).
Proof.
  intros Hk. unfold lookup_hits, search. unfold_result.
  destruct (py_assert (forallb _ x)); [|done].
  destruct (Z.ltb_spec 0 k'); [|lia]. destruct (Z.ltb_spec 0 k); [|lia].
  cbn [py_assert]. destruct x as [|q x]; [done|].
  change (map (map snd) (map (search_row ix (Z.to_nat k')) (q :: x)))
    with (map snd (search_row ix (Z.to_nat k') q)
          :: map (map snd) (map (search_row ix (Z.to_nat k')) x)).
  change (map (map snd) (map (search_row ix (Z.to_nat k)) (q :: x)))
    with (map snd (search_row ix (Z.to_nat k) q)
          :: map (map snd) (map (search_row ix (Z.to_nat k)) x)).
  rewrite !(getitem_nat (_ :: _) 0%nat _ eq_refl).
  rewrite (search_row_take ix q (Z.to_nat k) (Z.to_nat k')) by lia.
  rewrite <- firstn_map. apply comprehension_take.
Qed.

End HitsAndDocuments.

Section AlignedRetrievalMore.
Import Faiss.
Variables (ix : IndexFlatL2) (docs : list string) (q : list Q).
Hypothesis aligned : ntotal ix = length docs.
Hypothesis query_dim : length q = d ix.

(** Asking for as many results as there are documents returns the corpus,
    reordered. *)
Lemma retrieval_all :
  docs ≠ [] →
  ∃ rdocs, lookup_hits ix docs [q] (Z.of_nat (length docs)) = Ok rdocs
           ∧ rdocs ≡ₚ docs.
Proof.
  intros Hne.
  destruct (retrieval_full ix docs q aligned query_dim (Z.of_nat (length docs)))
    as (_ & _ & _ & rdocs & Hr & Hhd).
  { destruct docs; [done|]. cbn [length]. lia. }
  exists rdocs. split; [done|].
  rewrite (hit_doc_doc_at _ _ _ _ _ Hhd), Nat2Z.id, <- aligned.
  rewrite take_ge by (by rewrite length_ranked).
  rewrite (ranked_perm ix q). by rewrite doc_at_scan.
Qed.

(** Every positive [k] is answered with exactly [k] documents of the
    corpus. *)
Lemma retrieval_total (k : Z) :
  docs ≠ [] → (0 < k)%Z →
  ∃ rdocs, lookup_hits ix docs [q] k = Ok rdocs
           ∧ length rdocs = Z.to_nat k
           ∧ Forall (λ doc, doc ∈ docs) rdocs.
Proof.
  intros Hne Hk.
  assert (∀ hits rdocs, Forall2 (hit_doc ix docs q) hits rdocs →
            Forall (λ doc, doc ∈ docs) rdocs) as Hmem.
  { intros hits rdocs H. induction H as [|h doc ? ? (i & v & _ & _ & Hd) _ IH];
      constructor; [by eapply list_elem_of_lookup_2|done]. }
  destruct (Z.le_gt_cases k (Z.of_nat (length docs))) as [Hle|Hgt].
  - destruct (retrieval_full ix docs q aligned query_dim k)
      as (_ & Hl & _ & rdocs & Hr & Hhd); [lia|].
    exists rdocs. split; [done|]. split; [|by eapply Hmem].
    by rewrite <- (Forall2_length _ _ _ Hhd).
  - destruct (last docs) as [last_doc|] eqn:Hlast.
    2:{ by apply last_None in Hlast. }
    destruct (retrieval_short ix docs q aligned query_dim k last_doc)
      as (rdocs & Hr & Hhd); [done|lia|].
    eexists. split; [exact Hr|]. split.
    + rewrite length_app, length_replicate, <- (Forall2_length _ _ _ Hhd),
        length_ranked, aligned. lia.
    + apply Forall_app. split; [by eapply Hmem|].
      apply Forall_replicate. by apply last_Some_elem_of.
Qed.


End AlignedRetrievalMore.

Lemma built1_aligned (tk : Tokenizer) (m : Model) (gen : Generator)
    (docs : list string) (g : Example1.globals) (question : string) :
  Example1.build tk m gen docs = Ok g →
  ∃ q, Example1.embed_with tk m [question] = [q]
       ∧ length q = Faiss.d (Example1.index g)
       ∧ Faiss.ntotal (Example1.index g) = length docs
       ∧ docs ≠ []
       ∧ ∀ k, Example1.rag_retrieved_docs question k g
              = (lookup_hits (Example1.index g) docs [q] k, g).
Proof.
  intros Hb.
  destruct (build1_inv _ _ _ _ _ Hb) as (Hne & Htk & Hm & Hd & Hxb & Hdim).
  destruct (encoder_wf_one _ _ question (embed_with_wf tk m)) as (q & Hq & Hlen).
  exists q. repeat split; try done; [congruence| |].
  - unfold Faiss.ntotal. rewrite Hxb. apply embed_with_wf.
  - intros k. by rewrite rag_retrieved_docs_run, Htk, Hm, Hd, Hq.
Qed.

Lemma built2_aligned (e : SentenceTransformer) (D : nat) (gen : Generator)
    (docs : list string) (g : Example2.globals) (query : string) :
  encoder_wf (st_encode e) D →
  Example2.build e gen docs = Ok g →
  ∃ q, st_encode e [query] = [q]
       ∧ length q = Faiss.d (Example2.index g)
       ∧ Faiss.ntotal (Example2.index g) = length docs
       ∧ docs ≠ []
       ∧ Faiss.xb (Example2.index g) = st_encode e docs
       ∧ ∀ k, Example2.retrieve_documents query k g
              = (lookup_hits (Example2.index g) docs [q] k, g).
Proof.
  intros Hwf Hb.
  destruct (build2_inv e D gen docs g Hwf Hb) as (Hne & He & Hd & Hxb & Hdim).
  destruct (encoder_wf_one _ D query Hwf) as (q & Hq & Hlen).
  exists q. repeat split; try done; [congruence| |].
  - unfold Faiss.ntotal. rewrite Hxb. apply Hwf.
  - intros k. by rewrite retrieve_documents_run, He, Hd, Hq.
Qed.

(** X13: asking for as many results as the corpus has documents returns
    every document exactly once: the result is a permutation of the
    corpus, in [rag] and in [retrieve_documents]. *)
Theorem retrieval_of_whole_corpus_is_permutation :
  (∀ tk m gen docs g question,
      Example1.build tk m gen docs = Ok g →
      ∃ rdocs,
        Example1.rag_retrieved_docs question (Z.of_nat (length docs)) g
        = (Ok rdocs, g) ∧ rdocs ≡ₚ docs)
  ∧ (∀ e D gen docs g query,
       encoder_wf (st_encode e) D →
       Example2.build e gen docs = Ok g →
       ∃ rdocs,
         Example2.retrieve_documents query (Z.of_nat (length docs)) g
         = (Ok rdocs, g) ∧ rdocs ≡ₚ docs).
Proof.
  split.
  - intros tk m gen docs g question Hb.
    destruct (built1_aligned _ _ _ _ _ question Hb) as (q & _ & Hl & Hal & Hne & Hrun).
    destruct (retrieval_all _ docs q Hal Hl Hne) as (rdocs & Hr & Hp).
    exists rdocs. by rewrite Hrun, Hr.
  - intros e D gen docs g query Hwf Hb.
    destruct (built2_aligned _ _ _ _ _ query Hwf Hb)
      as (q & _ & Hl & Hal & Hne & _ & Hrun).
    destruct (retrieval_all _ docs q Hal Hl Hne) as (rdocs & Hr & Hp).
    exists rdocs. by rewrite Hrun, Hr.
Qed.


(** X15: on an indexed corpus the subscript [documents[idx]] never goes
    out of range: for every positive [top_k] the retrieval returns, with
    exactly [top_k] documents, each one a document of the corpus. *)
Theorem retrieval_returns_top_k_corpus_documents :
  (∀ tk m gen docs g question top_k,
      Example1.build tk m gen docs = Ok g → (0 < top_k)%Z →
      ∃ rdocs,
        Example1.rag_retrieved_docs question top_k g = (Ok rdocs, g)
        ∧ length rdocs = Z.to_nat top_k
        ∧ Forall (λ doc, doc ∈ docs) rdocs)
  ∧ (∀ e D gen docs g query k,
       encoder_wf (st_encode e) D →
       Example2.build e gen docs = Ok g → (0 < k)%Z →
       ∃ rdocs,
         Example2.retrieve_documents query k g = (Ok rdocs, g)
         ∧ length rdocs = Z.to_nat k
         ∧ Forall (λ doc, doc ∈ docs) rdocs).
Proof.
  split.
  - intros tk m gen docs g question top_k Hb Hk.
    destruct (built1_aligned _ _ _ _ _ question Hb) as (q & _ & Hl & Hal & Hne & Hrun).
    destruct (retrieval_total _ docs q Hal Hl top_k Hne Hk) as (rdocs & Hr & H).
    exists rdocs. by rewrite Hrun, Hr.
  - intros e D gen docs g query k Hwf Hb Hk.
    destruct (built2_aligned _ _ _ _ _ query Hwf Hb)
      as (q & _ & Hl & Hal & Hne & _ & Hrun).
    destruct (retrieval_total _ docs q Hal Hl k Hne Hk) as (rdocs & Hr & H).
    exists rdocs. by rewrite Hrun, Hr.
Qed.

Lemma retrieval_of_whole_corpus_is_permutation_witness :
  (∃ rdocs, Example1.rag_retrieved_docs "bb" (Z.of_nat (length Demo.docs1)) Demo.g1
            = (Ok rdocs, Demo.g1) ∧ rdocs ≡ₚ Demo.docs1)
  ∧ (∃ rdocs, Example2.retrieve_documents "dd" (Z.of_nat (length Demo.docs2)) Demo.g2
              = (Ok rdocs, Demo.g2) ∧ rdocs ≡ₚ Demo.docs2).
Proof.
  split.
  - apply (proj1 retrieval_of_whole_corpus_is_permutation
             Demo.tk Demo.mdl Demo.echo Demo.docs1 Demo.g1 "bb" eq_refl).
  - apply (proj2 retrieval_of_whole_corpus_is_permutation
             Demo.st 2%nat Demo.echo Demo.docs2 Demo.g2 "dd" demo_st_wf eq_refl).
Defined.


Lemma retrieval_returns_top_k_corpus_documents_witness :
  (∃ rdocs, Example1.rag_retrieved_docs "bb" 7 Demo.g1 = (Ok rdocs, Demo.g1)
            ∧ length rdocs = 7%nat)
  ∧ (∃ rdocs, Example2.retrieve_documents "dd" 2 Demo.g2 = (Ok rdocs, Demo.g2)
              ∧ Forall (λ doc, doc ∈ Demo.docs2) rdocs).
Proof.
  split.
  - destruct (proj1 retrieval_returns_top_k_corpus_documents
                Demo.tk Demo.mdl Demo.echo Demo.docs1 Demo.g1 "bb" 7 eq_refl)
      as (rdocs & Hrun & Hlen & _); [lia|].
    by exists rdocs.
  - destruct (proj2 retrieval_returns_top_k_corpus_documents
                Demo.st 2%nat Demo.echo Demo.docs2 Demo.g2 "dd" 2
                demo_st_wf eq_refl)
      as (rdocs & Hrun & _ & Hmem); [lia|].
    by exists rdocs.
Defined.

(** ** Building the index *)

(** X16: the second example indexes a corpus exactly when it is not
    empty: on an empty corpus [document_embeddings.shape[1]] raises
    [IndexError], and a built store holds one vector per document, in
    corpus order. *)
Theorem build_needs_a_document (e : SentenceTransformer) (D : nat)
    (gen : Generator) (docs : list string) :
  encoder_wf (st_encode e) D →
  (docs = [] → Example2.build e gen docs = Raise IndexError)
  ∧ (docs ≠ [] →
     Example2.build e gen docs
     = Ok {| Example2.embedder := e; Example2.documents := docs;
             Example2.index := {| Faiss.d := D; Faiss.xb := st_encode e docs |};
             Example2.generator := gen |}).
Proof.
  intros Hwf. destruct (Hwf docs) as [Hlen Hdim]. split.
  - intros ->. unfold Example2.build.
    destruct (st_encode e []) as [|v x]; [done|]. cbn in Hlen. lia.
  - intros Hne. unfold Example2.build. unfold_result.
    destruct (st_encode e docs) as [|v x] eqn:E; [by destruct docs|].
    cbn [shape1]. unfold Faiss.add, Faiss.new. cbn [Faiss.d Faiss.xb app].
    rewrite Forall_forall in Hdim.
    assert (length v = D) as Hv by (apply Hdim; by left).
    assert (forallb (λ w, length w =? length v)%nat (v :: x) = true) as ->.
    { apply forallb_forall. intros w Hw%list_elem_of_In. apply Nat.eqb_eq.
      rewrite Hv. by apply Hdim. }
    by rewrite Hv.
Qed.

Lemma build_needs_a_document_witness :
  encoder_wf (st_encode Demo.st) 2
  ∧ Example2.build Demo.st Demo.echo [] = Raise IndexError
  ∧ Example2.build Demo.st Demo.echo Demo.docs2 = Ok Demo.g2.
Proof.
  split; [exact demo_st_wf|].
  destruct (build_needs_a_document Demo.st 2 Demo.echo [] demo_st_wf) as [H0 _].
  destruct (build_needs_a_document Demo.st 2 Demo.echo Demo.docs2 demo_st_wf)
    as [_ H1].
  split; [by apply H0|]. by rewrite H1.
Defined.

(** ** What is embedded for a row *)

(** X17: for a row of the formatted dataset the text handed to the
    encoder is the title, a colon and a space, and the content; and the
    ["content"] entry that [get_docs] reads back is the content of the
    original row. *)
Theorem formatted_row_chunk (x : GroqRag.raw_row) :
  GroqRag.chunk_of (GroqRag.metadata (GroqRag.format_row x))
  = Ok (GroqRag.raw_title x +:+ ": " +:+ GroqRag.raw_content x)
  ∧ dict_get (GroqRag.metadata (GroqRag.format_row x)) "content" ""
    = GroqRag.raw_content x
  ∧ GroqRag.id (GroqRag.format_row x) = GroqRag.raw_id x.
Proof.
  unfold GroqRag.chunk_of, dict_getitem, dict_get. cbn.
  rewrite lookup_insert_eq, lookup_insert_ne by done.
  by rewrite lookup_insert_eq.
Qed.

Lemma system_message_shape_witness :
  (2 ≤ length ["doc A"; "doc B"])%nat
  ∧ contains (Prompt.system_message ["doc A"; "doc B"]) Prompt.system_literal.
Proof.
  assert (2 ≤ length ["doc A"; "doc B"])%nat as H by (cbn; lia).
  split; [exact H|].
  exact (proj1 (proj2 (system_message_shape ["doc A"; "doc B"]) H)).
Defined.

(** ** The usage lines of the second example *)

Section Usage.
Import Faiss.

Lemma scan_labels (ix : IndexFlatL2) (q : list Q) :
  (scan ix q).*2 = Z.of_nat <$> seq 0 (ntotal ix).
Proof.
  apply list_eq. intros i. unfold scan, ntotal.
  rewrite !list_lookup_fmap, list_lookup_imap.
  destruct (xb ix !! i) as [v|] eqn:Hv; cbn.
  - rewrite lookup_seq_lt; [done|]. by eapply lookup_lt_Some.
  - rewrite lookup_seq_ge; [done|]. by apply lookup_ge_None.
Qed.

(** No position is returned twice among the ranked hits. *)
Lemma ranked_labels_nodup (ix : IndexFlatL2) (q : list Q) :
  NoDup (ranked ix q).*2.
Proof.
  rewrite (ranked_perm ix q), scan_labels.
  apply NoDup_fmap; [apply _|apply NoDup_seq].
Qed.

End Usage.

(** X18: on a corpus of at least two documents the usage lines hand the
    generator the prompt "summarize: question: Q context: D1 D2", where D1
    and D2 are the documents at two different positions of the corpus, and
    return the decoding of its first output sequence. *)
Theorem example2_usage_prompt (e : SentenceTransformer) (D : nat)
    (gen : Generator) (docs : list string) (g : Example2.globals)
    (question : string) :
  encoder_wf (st_encode e) D →
  Example2.build e gen docs = Ok g →
  (2 ≤ length docs)%nat →
  ∃ i1 i2 d1 d2,
    i1 ≠ i2 ∧ docs !! i1 = Some d1 ∧ docs !! i2 = Some d2
    ∧ example2_usage question g
      = (out0 ← getitem
                  (gen_generate gen
                     (gen_encode gen
                        ("summarize: question: " +:+ question +:+ " context: "
                         +:+ d1 +:+ " " +:+ d2) (Some 512%nat))
                     150 5 true) 0;
         Ok (gen_decode gen out0), g).
Proof.
  intros Hwf Hb Hn.
  destruct (built2_aligned _ _ _ _ _ question Hwf Hb)
    as (q & _ & Hl & Hal & _ & _ & Hrun).
  destruct (retrieval_full _ docs q Hal Hl 2) as (_ & Hlen & _ & rdocs & Hr & Hhd);
    [lia|].
  pose proof (ranked_labels_nodup (Example2.index g) q) as Hnd.
  rewrite <- (take_drop (Z.to_nat 2) (Faiss.ranked (Example2.index g) q)),
    fmap_app in Hnd.
  apply NoDup_app in Hnd as (Hnd & _ & _).
  destruct (take (Z.to_nat 2) (Faiss.ranked (Example2.index g) q))
    as [|h1 [|h2 [|]]] eqn:Et; try done.
  inversion Hhd as [|? d1 ? rest (i1 & v1 & -> & _ & Hd1) Hrest]; subst.
  inversion Hrest as [|? d2 ? rest' (i2 & v2 & -> & _ & Hd2) Hnil]; subst.
  inversion Hnil; subst.
  exists i1, i2, d1, d2. split.
  { intros ->. cbn in Hnd. apply NoDup_cons in Hnd as [Hnot _].
    apply Hnot. by left. }
  split; [done|]. split; [done|].
  unfold example2_usage. unfold mbind at 1. unfold prog_bind.
  rewrite Hrun, Hr, generate_answer_run.
  assert (Example2.generator g = gen) as ->.
  { revert Hb. unfold Example2.build. unfold_result.
    destruct (shape1 _); [|done]. destruct (Faiss.add _ _); [|done].
    by intros [= <-]. }
  reflexivity.
Qed.

Lemma example2_usage_prompt_witness :
  encoder_wf (st_encode Demo.st) 2
  ∧ Example2.build Demo.st Demo.echo Demo.docs2 = Ok Demo.g2
  ∧ (2 ≤ length Demo.docs2)%nat
  ∧ ∃ d1 d2,
      d1 ∈ Demo.docs2 ∧ d2 ∈ Demo.docs2
      ∧ (example2_usage "dd" Demo.g2).1
        = Ok ("summarize: question: dd context: " +:+ d1 +:+ " " +:+ d2).
Proof.
  assert (2 ≤ length Demo.docs2)%nat as Hn by (cbn; lia).
  split; [exact demo_st_wf|]. split; [reflexivity|]. split; [exact Hn|].
  destruct (example2_usage_prompt Demo.st 2 Demo.echo Demo.docs2 Demo.g2 "dd"
              demo_st_wf eq_refl Hn) as (i1 & i2 & d1 & d2 & _ & H1 & H2 & Hrun).
  exists d1, d2. split; [by eapply list_elem_of_lookup_2|].
  split; [by eapply list_elem_of_lookup_2|].
  rewrite Hrun. clear Hrun.
  destruct i1 as [|[|[|?]]], i2 as [|[|[|?]]]; try done;
    injection H1 as <-; injection H2 as <-; vm_compute; reflexivity.
Defined.

Example example2_usage_run :
  (example2_usage "dd" Demo.g2).1 = Ok "summarize: question: dd context: cc a".
Proof. vm_compute. reflexivity. Qed.
